(** * User directory: validators and guarded directory operations

    A shallow embedding of [app/utils.py] (user-management_2).

    - Python [str] is modelled by [string], one [ascii] per code point; the
      model is exact for ASCII text (on code points below 256 the class [\d]
      is exactly ['0'..'9']).  A [str] can also hold code points from 256
      up, among them the other decimal digits that [\d] matches; such
      strings are outside the model, and no statement below speaks of
      them.
    - A Python [dict] with string keys is a [gmap string _].  A user record is
      a dict from field names to values, the directory [data['records']] is a
      dict from usernames to records.
    - Exceptions are an error result; the directory is threaded explicitly:
      a mutating operation returns its result together with the directory
      after the call.
    - [log_message] belongs to the logging collaborator [log.py]; its calls
      neither change the directory nor the result and are left out.
    - [constants.py] is configuration data; its tables are the fields of the
      class [Constants]. *)

From Stdlib Require Import ZArith Ascii String Bool List Lia.
From stdpp Require Import gmap strings.

Local Open Scope string_scope.
Local Open Scope Z_scope.

(** ** Characters and strings *)

Definition code (c : ascii) : N := N_of_ascii c.

Definition in_range (lo hi : N) (c : ascii) : bool :=
  ((lo <=? code c) && (code c <=? hi))%N.

(** [0-9], [a-z] and [A-Z]. *)
Definition is_digit (c : ascii) : bool := in_range 48 57 c.
Definition is_lower (c : ascii) : bool := in_range 97 122 c.
Definition is_upper (c : ascii) : bool := in_range 65 90 c.
Definition is_alnum (c : ascii) : bool := is_lower c || is_upper c || is_digit c.

Definition is_char (d c : ascii) : bool := Ascii.eqb d c.

Definition newline : ascii := "010"%char.

(** [str.lower()] and [str.upper()] on ASCII text. *)
Definition lower_char (c : ascii) : ascii :=
  if is_upper c then ascii_of_N (code c + 32) else c.

Definition upper_char (c : ascii) : ascii :=
  if is_lower c then ascii_of_N (code c - 32) else c.

Fixpoint str_map (f : ascii -> ascii) (s : string) : string :=
  match s with
  | EmptyString => EmptyString
  | String c t => String (f c) (str_map f t)
  end.

Definition lower (s : string) : string := str_map lower_char s.
Definition upper (s : string) : string := str_map upper_char s.

Fixpoint str_all (p : ascii -> bool) (s : string) : bool :=
  match s with
  | EmptyString => true
  | String c t => p c && str_all p t
  end.

(** The text for which [lower] and [upper] are exact: code points below
    128. *)
Definition is_ascii (c : ascii) : bool := (code c <? 128)%N.

(** [x in xs] for a list (or set, or tuple) of strings. *)
Fixpoint str_in (x : string) (xs : list string) : bool :=
  match xs with
  | nil => false
  | y :: ys => String.eqb x y || str_in x ys
  end.

(** ** Regular expressions, as used by [re.match] *)

Inductive regex : Type :=
| Void : regex
| Eps : regex
| Cls : (ascii -> bool) -> regex
| Cat : regex -> regex -> regex
| Alt : regex -> regex -> regex
| Star : regex -> regex.

(** [r+] and [r{n}]. *)
Definition Plus (r : regex) : regex := Cat r (Star r).

Fixpoint Rep (n : nat) (r : regex) : regex :=
  match n with
  | O => Eps
  | S k => Cat r (Rep k r)
  end.

Fixpoint nullable (r : regex) : bool :=
  match r with
  | Void => false
  | Eps => true
  | Cls _ => false
  | Cat a b => nullable a && nullable b
  | Alt a b => nullable a || nullable b
  | Star _ => true
  end.

Fixpoint deriv (c : ascii) (r : regex) : regex :=
  match r with
  | Void => Void
  | Eps => Void
  | Cls p => if p c then Eps else Void
  | Cat a b =>
      if nullable a then Alt (Cat (deriv c a) b) (deriv c b)
      else Cat (deriv c a) b
  | Alt a b => Alt (deriv c a) (deriv c b)
  | Star a => Cat (deriv c a) (Star a)
  end.

(** The whole of [s] is a word of [r]. *)
Fixpoint full_match (r : regex) (s : string) : bool :=
  match s with
  | EmptyString => nullable r
  | String c t => full_match (deriv c r) t
  end.

(** [s] without a final newline, when it has one. *)
Fixpoint chomp (s : string) : option string :=
  match s with
  | EmptyString => None
  | String c EmptyString => if is_char newline c then Some EmptyString else None
  | String c t =>
      match chomp t with
      | Some t' => Some (String c t')
      | None => None
      end
  end.

(** [re.match('^' + r + '$', s)] is truthy: without the MULTILINE flag [^]
    holds at the start of [s] and [$] holds at the end of [s] and also just
    before a newline that is the last character of [s]. *)
Definition re_match (r : regex) (s : string) : bool :=
  full_match r s ||
  match chomp s with
  | Some t => full_match r t
  | None => false
  end.

(** [[a-zA-Z0-9_.+-]], [[a-zA-Z0-9-]] and [[a-zA-Z0-9-.]]. *)
Definition local_part_char (c : ascii) : bool :=
  is_alnum c || is_char "_" c || is_char "." c || is_char "+" c || is_char "-" c.
Definition host_char (c : ascii) : bool := is_alnum c || is_char "-" c.
Definition suffix_char (c : ascii) : bool :=
  is_alnum c || is_char "-" c || is_char "." c.

(** The body of [r'^[a-zA-Z0-9_.+-]+@[a-zA-Z0-9-]+\.[a-zA-Z0-9-.]+$']. *)
Definition email_regex : regex :=
  Cat (Plus (Cls local_part_char))
      (Cat (Cls (is_char "@"))
           (Cat (Plus (Cls host_char))
                (Cat (Cls (is_char ".")) (Plus (Cls suffix_char))))).

(** The body of [r'^\d{10}$'], on the characters that a [string] holds. *)
Definition mobile_regex : regex := Rep 10 (Cls is_digit).

(** Exactly ten characters, each a decimal digit. *)
Definition ten_digits (s : string) : bool :=
  (String.length s =? 10)%nat && str_all is_digit s.

(** The words of a regular expression. *)
Inductive matches : regex -> string -> Prop :=
| matches_eps : matches Eps EmptyString
| matches_cls p c : p c = true -> matches (Cls p) (String c EmptyString)
| matches_cat a b s t :
    matches a s -> matches b t -> matches (Cat a b) (String.append s t)
| matches_alt_l a b s : matches a s -> matches (Alt a b) s
| matches_alt_r a b s : matches b s -> matches (Alt a b) s
| matches_star_nil a : matches (Star a) EmptyString
| matches_star_app a s t :
    matches a s -> matches (Star a) t -> matches (Star a) (String.append s t).

(** A non-empty string of characters of the class [p]. *)
Definition word_of (p : ascii -> bool) (s : string) : Prop :=
  s <> EmptyString /\ str_all p s = true.

(** [local@host.suffix], each part a non-empty word of its class. *)
Definition email_shape (s : string) : Prop :=
  exists local host suffix,
    s = String.append local
          (String "@" (String.append host (String "." suffix))) /\
    word_of local_part_char local /\ word_of host_char host /\
    word_of suffix_char suffix.

(** ** Values, exceptions and results *)

(** The values a field can hold. *)
Inductive value : Type :=
| VStr : string -> value
| VInt : Z -> value
| VBool : bool -> value
| VNone : value.

(** The exceptions raised: [ValueError] and [PermissionError] by the module
    itself, [TypeError] and [AttributeError] by the operations it applies to
    a value of the wrong type. *)
Inductive exn : Type :=
| ValueError : string -> exn
| PermissionError : string -> exn
| TypeError : exn
| AttributeError : exn.

Inductive result (A : Type) : Type :=
| Ok : A -> result A
| Raise : exn -> result A.

Arguments Ok {A} _.
Arguments Raise {A} _.

#[global] Instance result_bind : MBind result :=
  fun A B (k : A -> result B) (m : result A) =>
    match m with
    | Ok a => k a
    | Raise e => Raise e
    end.

Definition raises {A : Type} (m : result A) : bool :=
  match m with
  | Ok _ => false
  | Raise _ => true
  end.

(** The spec's names for the failures. *)
Definition NotFound : exn := ValueError "User not found".
Definition AlreadyExists : exn := ValueError "User already exists".
Definition Unauthorized : exn := PermissionError "Unauthorized access".

(** A record, and the directory [data['records']]. *)
Abbreviation record := (gmap string value).
Abbreviation directory := (gmap string (gmap string value)).

(** [bool(d)] of a dict: an empty dict is falsy. *)
Definition truthy (d : record) : bool := negb (bool_decide (d = ∅)).

(** ** Configuration data ([constants.py]) *)

Class Constants : Type := {
  VALID_COUNTRY_LIST : list string;
  EXCLUDED_NUMBERS : list string;
  VALID_GENDERS : list string;
  VALID_BLOOD_GROUPS : list string
}.

(** ** Validators *)

Section Validators.
Context `{Constants}.

Definition validate_email (email : value) : result bool :=
  match email with
  | VStr s =>
      if negb (re_match email_regex s)
      then Raise (ValueError "Invalid email format")
      else Ok true
  | _ => Raise TypeError
  end.

(** [0 <= age <= 120]; a [bool] compares as the integer 0 or 1. *)
Definition validate_age (age : value) : result bool :=
  match age with
  | VInt a =>
      if negb ((0 <=? a) && (a <=? 120))
      then Raise (ValueError "Invalid age")
      else Ok true
  | VBool _ => Ok true
  | _ => Raise TypeError
  end.

Definition validate_mobile (mobile : value) : result bool :=
  match mobile with
  | VStr s =>
      if negb (re_match mobile_regex s)
      then Raise (ValueError "Invalid mobile number")
      else if str_in s EXCLUDED_NUMBERS then Ok false
      else Ok true
  | _ => Raise TypeError
  end.

Definition validate_gender (gender : value) : result bool :=
  match gender with
  | VStr s =>
      if negb (str_in (lower s) VALID_GENDERS)
      then Raise (ValueError "Invalid gender")
      else Ok true
  | _ => Raise AttributeError
  end.

Definition validate_blood_group (blood_group : value) : result bool :=
  match blood_group with
  | VStr s =>
      if negb (str_in (upper s) VALID_BLOOD_GROUPS)
      then Raise (ValueError "Invalid blood group")
      else Ok true
  | _ => Raise AttributeError
  end.

End Validators.

(** ** Directory operations

    [records] is [data['records']] when the call starts.  [get_user_info] and
    [list_all_users] only read it; [add_user] and [update_user] return their
    result paired with the directory when the call ends. *)

Section Operations.
Context `{Constants}.

Definition get_user_info (records : directory)
    (username current_user : string) (is_admin : bool) : result record :=
  match records !! username with
  | Some user_info =>
      if truthy user_info then
        if String.eqb username current_user || is_admin then Ok user_info
        else Raise Unauthorized
      else Raise NotFound
  | None => Raise NotFound
  end.

Definition list_all_users (records : directory)
    (current_user : string) (is_admin : bool) : result directory :=
  if is_admin then Ok records else Raise Unauthorized.

(** The dict literal that [add_user] stores. *)
Definition new_record (email age mobile gender blood_group role : value) : record :=
  {[ "email" := email; "age" := age; "mobile" := mobile; "gender" := gender;
     "blood_group" := blood_group; "role" := role ]}.

Definition add_user (records : directory) (username : string)
    (email age mobile gender blood_group role : value)
    (current_user : string) (is_admin : bool) : result directory * directory :=
  if is_admin then
    match
      validate_email email ;; validate_age age ;; validate_mobile mobile ;;
      validate_gender gender ;; validate_blood_group blood_group
    with
    | Raise e => (Raise e, records)
    | Ok _ =>
        if bool_decide (is_Some (records !! username))
        then (Raise AlreadyExists, records)
        else
          let records' :=
            <[ username := new_record email age mobile gender blood_group role ]> records in
          (Ok records', records')
    end
  else (Raise Unauthorized, records).

(** [if field in updates: validator(updates[field])]. *)
Definition check_field (updates : record) (field : string)
    (validator : value -> result bool) : result unit :=
  match updates !! field with
  | Some v => validator v ;; Ok tt
  | None => Ok tt
  end.

(** The five guarded validator calls of [update_user], in order. *)
Definition validate_updates (updates : record) : result unit :=
  check_field updates "email" validate_email ;;
  check_field updates "age" validate_age ;;
  check_field updates "mobile" validate_mobile ;;
  check_field updates "gender" validate_gender ;;
  check_field updates "blood_group" validate_blood_group.

(** [d.update(updates)]: every key of [updates] is set, the others stay. *)
Definition dict_update (d updates : record) : record := updates ∪ d.

Definition update_user (records : directory) (username : string)
    (updates : record) (current_user : string) (is_admin : bool)
    : result record * directory :=
  match records !! username with
  | Some user_info =>
      if negb (truthy user_info) then (Raise NotFound, records)
      else if negb (String.eqb current_user username) && negb is_admin
      then (Raise Unauthorized, records)
      else
        match validate_updates updates with
        | Raise e => (Raise e, records)
        | Ok _ =>
            let updated := dict_update user_info updates in
            (Ok updated, <[ username := updated ]> records)
        end
  | None => (Raise NotFound, records)
  end.

(** A call of one of the four operations, and the directory it leaves. *)
Inductive call : Type :=
| GetUserInfo (username current_user : string) (is_admin : bool)
| ListAllUsers (current_user : string) (is_admin : bool)
| AddUser (username : string) (email age mobile gender blood_group role : value)
    (current_user : string) (is_admin : bool)
| UpdateUser (username : string) (updates : record)
    (current_user : string) (is_admin : bool).

Definition run (c : call) (records : directory) : directory :=
  match c with
  | GetUserInfo _ _ _ => records
  | ListAllUsers _ _ => records
  | AddUser username email age mobile gender blood_group role current_user is_admin =>
      snd (add_user records username email age mobile gender blood_group role
             current_user is_admin)
  | UpdateUser username updates current_user is_admin =>
      snd (update_user records username updates current_user is_admin)
  end.

Fixpoint run_all (cs : list call) (records : directory) : directory :=
  match cs with
  | nil => records
  | c :: cs' => run_all cs' (run c records)
  end.

(** *** The directory invariant *)

(** A validator accepts a value when its call returns instead of raising
    (the result of [validate_mobile] may be [False]: an excluded number). *)
Definition accepts (validator : value -> result bool) (v : value) : Prop :=
  raises (validator v) = false.

(** Each validated field that a record holds is accepted by its validator. *)
Definition valid_record (r : record) : Prop :=
  (forall v, r !! "email" = Some v -> accepts validate_email v) /\
  (forall v, r !! "age" = Some v -> accepts validate_age v) /\
  (forall v, r !! "mobile" = Some v -> accepts validate_mobile v) /\
  (forall v, r !! "gender" = Some v -> accepts validate_gender v) /\
  (forall v, r !! "blood_group" = Some v -> accepts validate_blood_group v).

Definition valid_directory (records : directory) : Prop :=
  forall username r, records !! username = Some r -> valid_record r.

(** Every stored record is a non-empty dict (a user record has fields). *)
Definition populated (records : directory) : Prop :=
  forall username r, records !! username = Some r -> r <> ∅.

(** The names of the fields that [update_user] validates. *)
Definition validated_fields : list string :=
  ["email"; "age"; "mobile"; "gender"; "blood_group"].

End Operations.

(** The keys of the dict literal of [add_user]. *)
Definition record_fields : gset string :=
  {[ "email"; "age"; "mobile"; "gender"; "blood_group"; "role" ]}.

(** A body that a [try] block of [main] can take: it returns, or raises
    one of the two kinds named in the [except] clause. *)
Definition handled {A : Type} (body : result A) : Prop :=
  match body with
  | Ok _ => True
  | Raise (ValueError _) | Raise (PermissionError _) => True
  | Raise _ => False
  end.

(** ** The driver ([main.py]) *)

Section Driver.
Context `{Constants}.

(** [except (ValueError, PermissionError)]: the two kinds that [main]
    handles. *)
Definition caught (e : exn) : bool :=
  match e with
  | ValueError _ | PermissionError _ => true
  | TypeError | AttributeError => false
  end.

(** One [try: ... except (ValueError, PermissionError) as e: ...] block:
    the handled exception, if any; another exception propagates. *)
Definition try_except {A : Type} (body : result A) : result (option exn) :=
  match body with
  | Ok _ => Ok None
  | Raise e => if caught e then Ok (Some e) else Raise e
  end.

(** The five scenarios of [main], in order; the result lists what each
    block handled. *)
Definition main (records : directory)
    : result (list (option exn)) * directory :=
  let added :=
    add_user records "dummy" (VStr "dummy@example.com") (VInt 30)
      (VStr "7776543210") (VStr "male") (VStr "A+") (VStr "user")
      "kiran" true in
  let updated :=
    update_user (snd added) "dummy"
      {[ "email" := VStr "new_dummy@example.com" ]} "kiran" true in
  let records' := snd updated in
  (e1 ← try_except (fst added);
   e2 ← try_except (fst updated);
   e3 ← try_except (get_user_info records' "ndines" "kiran" true);
   e4 ← try_except (list_all_users records' "nkiran" true);
   e5 ← try_except (get_user_info records' "radha2" "radha2" false);
   Ok [e1; e2; e3; e4; e5],
   match try_except (fst added) with
   | Ok _ => records'
   | Raise _ => snd added
   end).

End Driver.

(** ** Sample configuration and data (the values of [main.py]) *)

Definition sample_constants : Constants := {|
  VALID_COUNTRY_LIST := ["India"; "USA"];
  EXCLUDED_NUMBERS := ["9898989898"];
  VALID_GENDERS := ["male"; "female"; "other"];
  VALID_BLOOD_GROUPS := ["A+"; "A-"; "B+"; "B-"; "AB+"; "AB-"; "O+"; "O-"]
|}.

Definition dummy_record : record :=
  new_record (VStr "dummy@example.com") (VInt 30) (VStr "7776543210")
    (VStr "male") (VStr "A+") (VStr "user").

Definition sample_records : directory := {[ "dummy" := dummy_record ]}.

(** The same tables with an empty exclusion list. *)
Definition open_constants : Constants := {|
  VALID_COUNTRY_LIST := ["India"; "USA"];
  EXCLUDED_NUMBERS := [];
  VALID_GENDERS := ["male"; "female"; "other"];
  VALID_BLOOD_GROUPS := ["A+"; "A-"; "B+"; "B-"; "AB+"; "AB-"; "O+"; "O-"]
|}.

(** The call of [add_user] that [main] makes. *)
Definition add_dummy : call :=
  AddUser "dummy" (VStr "dummy@example.com") (VInt 30) (VStr "7776543210")
    (VStr "male") (VStr "A+") (VStr "user") "kiran" true.

(** Ten digits followed by a line feed. *)
Definition mobile_with_newline : string :=
  String.append "7776543210" (String newline EmptyString).

(** * Properties *)

(** ** Regular expressions *)

Lemma full_match_Void s : full_match Void s = false.
Proof. induction s as [|c t IH]; [reflexivity | exact IH]. Qed.

Lemma full_match_Cat_Void r s : full_match (Cat Void r) s = false.
Proof. induction s as [|c t IH]; [reflexivity | exact IH]. Qed.

Lemma full_match_Alt a b s :
  full_match (Alt a b) s = full_match a s || full_match b s.
Proof.
  revert a b. induction s as [|c t IH]; intros a b; simpl.
  - reflexivity.
  - apply IH.
Qed.

Lemma full_match_Cat_Eps r s : full_match (Cat Eps r) s = full_match r s.
Proof.
  destruct s as [|c t]; simpl.
  - reflexivity.
  - rewrite full_match_Alt, full_match_Cat_Void. reflexivity.
Qed.

Lemma full_match_Cat_Cls p r c t :
  full_match (Cat (Cls p) r) (String c t) = p c && full_match r t.
Proof.
  simpl. destruct (p c).
  - apply full_match_Cat_Eps.
  - apply full_match_Cat_Void.
Qed.

Lemma full_match_Rep_Cls p n s :
  full_match (Rep n (Cls p)) s = (String.length s =? n)%nat && str_all p s.
Proof.
  revert s. induction n as [|k IH]; intros [|c t].
  - reflexivity.
  - simpl. apply full_match_Void.
  - reflexivity.
  - change (Rep (S k) (Cls p)) with (Cat (Cls p) (Rep k (Cls p))).
    rewrite full_match_Cat_Cls, IH. simpl.
    destruct (p c), (String.length t =? k)%nat; reflexivity.
Qed.

(** What [re.match(r'^\d{10}$', s)] accepts: ten digits, with or without a
    line feed after them. *)
Lemma re_match_mobile s :
  re_match mobile_regex s =
  ten_digits s || match chomp s with Some t => ten_digits t | None => false end.
Proof.
  unfold re_match, mobile_regex, ten_digits.
  rewrite full_match_Rep_Cls. destruct (chomp s) as [t|]; [|reflexivity].
  rewrite full_match_Rep_Cls. reflexivity.
Qed.

Lemma chomp_append t : chomp (String.append t (String newline EmptyString)) = Some t.
Proof.
  induction t as [|c t IH]; [reflexivity|].
  simpl. simpl in IH. rewrite IH. destruct t; reflexivity.
Qed.

Lemma chomp_Some s t : chomp s = Some t -> s = String.append t (String newline EmptyString).
Proof.
  revert t. induction s as [|c s IH]; intros t; [discriminate|].
  destruct s as [|d s'].
  - cbn [chomp]. unfold is_char.
    destruct (Ascii.eqb_spec newline c) as [<-|]; [|discriminate].
    intros Ht. injection Ht as <-. reflexivity.
  - change (chomp (String c (String d s'))) with
      (match chomp (String d s') with Some u => Some (String c u) | None => None end).
    destruct (chomp (String d s')) as [u|]; [|discriminate].
    intros Ht. injection Ht as <-. rewrite (IH u eq_refl). reflexivity.
Qed.

(** ** Validators *)

Section ValidatorFacts.
Context `{Constants}.

(** A string of ten digits is never refused; the result tells whether the
    number is excluded. *)
Lemma validate_mobile_ten_digits s :
  ten_digits s = true ->
  validate_mobile (VStr s) = Ok (negb (str_in s EXCLUDED_NUMBERS)).
Proof.
  intros Hs. unfold validate_mobile. rewrite re_match_mobile, Hs. simpl.
  destruct (str_in s EXCLUDED_NUMBERS); reflexivity.
Qed.

(** [validate_mobile] raises exactly on the strings that are neither ten
    digits nor ten digits and a final line feed. *)
Lemma validate_mobile_raises s :
  raises (validate_mobile (VStr s)) =
  negb (ten_digits s ||
        match chomp s with Some t => ten_digits t | None => false end).
Proof.
  unfold validate_mobile. rewrite re_match_mobile.
  destruct (ten_digits s || _); simpl; [|reflexivity].
  destruct (str_in s EXCLUDED_NUMBERS); reflexivity.
Qed.

Lemma validate_mobile_refused s :
  ten_digits s = false ->
  (forall t, s <> String.append t (String newline EmptyString)) ->
  validate_mobile (VStr s) = Raise (ValueError "Invalid mobile number").
Proof.
  intros Hs Hnl. unfold validate_mobile. rewrite re_match_mobile, Hs.
  destruct (chomp s) as [t|] eqn:Hc; [|reflexivity].
  destruct (Hnl t (chomp_Some _ _ Hc)).
Qed.

(** C2 (the code departs from the claim): a string of ten digits followed by
    a line feed has eleven characters, so it is not "exactly 10 decimal
    digits", and yet [validate_mobile] returns for it instead of raising:
    [$] also matches just before a final line feed. *)
Theorem validate_mobile_trailing_newline :
  String.length mobile_with_newline = 11%nat /\
  ten_digits mobile_with_newline = false /\
  validate_mobile (VStr mobile_with_newline) =
    Ok (negb (str_in mobile_with_newline EXCLUDED_NUMBERS)).
Proof.
  split; [reflexivity|]. split; [reflexivity|].
  unfold validate_mobile. rewrite re_match_mobile.
  replace (chomp mobile_with_newline) with (Some "7776543210")
    by (symmetry; apply chomp_append).
  change (ten_digits "7776543210") with true. rewrite orb_true_r. simpl.
  destruct (str_in mobile_with_newline EXCLUDED_NUMBERS); reflexivity.
Qed.

(** C8: on an integer, [validate_age] returns [True] exactly when
    [0 <= a <= 120] and raises [ValueError("Invalid age")] exactly
    otherwise. *)
Theorem validate_age_range (a : Z) :
  (validate_age (VInt a) = Ok true <-> 0 <= a <= 120) /\
  (validate_age (VInt a) = Raise (ValueError "Invalid age") <->
   ~ (0 <= a <= 120)).
Proof.
  unfold validate_age.
  destruct (Z.leb_spec 0 a), (Z.leb_spec a 120); simpl;
    split; split; intros E; try discriminate; try reflexivity; lia.
Qed.

End ValidatorFacts.

Example validate_mobile_wrong_length :
  @validate_mobile sample_constants (VStr "12345") =
  Raise (ValueError "Invalid mobile number").
Proof. reflexivity. Qed.

Example validate_mobile_non_digits :
  @validate_mobile sample_constants (VStr "12345abcde") =
  Raise (ValueError "Invalid mobile number").
Proof. reflexivity. Qed.

Example validate_mobile_excluded :
  @validate_mobile sample_constants (VStr "9898989898") = Ok false.
Proof. reflexivity. Qed.

Example validate_mobile_valid :
  @validate_mobile sample_constants (VStr "7776543210") = Ok true.
Proof. reflexivity. Qed.

Example validate_gender_upper_case :
  @validate_gender sample_constants (VStr "MALE") = Ok true.
Proof. reflexivity. Qed.

Example validate_gender_unknown :
  @validate_gender sample_constants (VStr "alien") =
  Raise (ValueError "Invalid gender").
Proof. reflexivity. Qed.

(** ** The result monad and dicts *)

Lemma bind_Ok {A B : Type} (m : result A) (k : A -> result B) (b : B) :
  m ≫= k = Ok b -> exists a, m = Ok a /\ k a = Ok b.
Proof. destruct m as [a|e]; [eauto | discriminate]. Qed.

Lemma raises_false {A : Type} (m : result A) :
  raises m = false -> exists a, m = Ok a.
Proof. destruct m as [a|e]; [eauto | discriminate]. Qed.

Lemma truthy_nonempty (d : record) : d <> ∅ -> truthy d = true.
Proof. intros Hd. unfold truthy. rewrite bool_decide_eq_false_2; done. Qed.

Lemma truthy_empty : truthy ∅ = false.
Proof. reflexivity. Qed.

Lemma dict_update_set (d updates : record) k v :
  updates !! k = Some v -> dict_update d updates !! k = Some v.
Proof. intros Hk. unfold dict_update. apply lookup_union_Some_l, Hk. Qed.

Lemma dict_update_keep (d updates : record) k :
  updates !! k = None -> dict_update d updates !! k = d !! k.
Proof. intros Hk. unfold dict_update. apply lookup_union_r, Hk. Qed.

Lemma dict_update_nonempty (d updates : record) :
  d <> ∅ -> dict_update d updates <> ∅.
Proof.
  intros Hd Hu. unfold dict_update in Hu.
  apply map_choose in Hd as (k & v & Hk).
  assert (is_Some ((updates ∪ d) !! k)) as [w Hw]
    by (apply lookup_union_is_Some; eauto).
  rewrite Hu, lookup_empty in Hw. discriminate.
Qed.

Lemma new_record_nonempty email age mobile gender blood_group role :
  new_record email age mobile gender blood_group role <> ∅.
Proof. unfold new_record. apply insert_non_empty. Qed.

(** ** Directory operations *)

Section DirectoryFacts.
Context `{Constants}.

Lemma check_field_ok (updates : record) field validator :
  (forall v, updates !! field = Some v -> accepts validator v) ->
  check_field updates field validator = Ok tt.
Proof.
  intros Hv. unfold check_field. destruct (updates !! field) as [v|]; [|done].
  destruct (raises_false _ (Hv v eq_refl)) as [b ->]. reflexivity.
Qed.

Lemma check_field_inv (updates : record) field validator u :
  check_field updates field validator = Ok u ->
  forall v, updates !! field = Some v -> accepts validator v.
Proof.
  unfold check_field, accepts. intros Hc v Hv. rewrite Hv in Hc.
  destruct (validator v); [reflexivity | discriminate].
Qed.

Lemma check_field_insert_ne (updates : record) field validator k v :
  k <> field ->
  check_field (<[ k := v ]> updates) field validator =
  check_field updates field validator.
Proof. intros Hk. unfold check_field. rewrite lookup_insert_ne; done. Qed.

Lemma validate_updates_ok (updates : record) :
  valid_record updates -> validate_updates updates = Ok tt.
Proof.
  intros (He & Ha & Hm & Hg & Hb). unfold validate_updates.
  rewrite !check_field_ok by assumption. reflexivity.
Qed.

Lemma validate_updates_inv (updates : record) u :
  validate_updates updates = Ok u -> valid_record updates.
Proof.
  unfold validate_updates. intros Hu.
  apply bind_Ok in Hu as (? & He & Hu). apply bind_Ok in Hu as (? & Ha & Hu).
  apply bind_Ok in Hu as (? & Hm & Hu). apply bind_Ok in Hu as (? & Hg & Hb).
  repeat split; eapply check_field_inv; eassumption.
Qed.

(** A key outside the validated fields does not take part in validation. *)
Lemma validate_updates_insert (updates : record) k v :
  ~ In k validated_fields ->
  validate_updates (<[ k := v ]> updates) = validate_updates updates.
Proof.
  intros Hk. unfold validate_updates.
  rewrite !check_field_insert_ne; [reflexivity | ..];
    intros ->; apply Hk; simpl; tauto.
Qed.

Lemma valid_record_insert (updates : record) k v :
  ~ In k validated_fields ->
  valid_record updates -> valid_record (<[ k := v ]> updates).
Proof.
  intros Hk Hu. eapply validate_updates_inv.
  rewrite validate_updates_insert by assumption.
  apply validate_updates_ok, Hu.
Qed.

Lemma valid_record_update (d updates : record) :
  valid_record d -> valid_record updates ->
  valid_record (dict_update d updates).
Proof.
  unfold dict_update.
  intros (He & Ha & Hm & Hg & Hb) (He' & Ha' & Hm' & Hg' & Hb').
  repeat split; intros v Hv;
    apply lookup_union_Some_raw in Hv as [Hv | [_ Hv]]; eauto.
Qed.

Lemma valid_record_new email age mobile gender blood_group role :
  accepts validate_email email -> accepts validate_age age ->
  accepts validate_mobile mobile -> accepts validate_gender gender ->
  accepts validate_blood_group blood_group ->
  valid_record (new_record email age mobile gender blood_group role).
Proof.
  intros He Ha Hm Hg Hb. unfold new_record.
  repeat split; intros v Hv; simplify_map_eq; assumption.
Qed.

(** The five validator calls of [add_user] return exactly when each value
    is accepted. *)
Lemma add_user_checks_ok email age mobile gender blood_group :
  accepts validate_email email -> accepts validate_age age ->
  accepts validate_mobile mobile -> accepts validate_gender gender ->
  accepts validate_blood_group blood_group ->
  exists b,
    (validate_email email ;; validate_age age ;; validate_mobile mobile ;;
     validate_gender gender ;; validate_blood_group blood_group) = Ok b.
Proof.
  intros He Ha Hm Hg Hb.
  destruct (raises_false _ He) as [? ->], (raises_false _ Ha) as [? ->],
    (raises_false _ Hm) as [? ->], (raises_false _ Hg) as [? ->],
    (raises_false _ Hb) as [b ->].
  exists b. reflexivity.
Qed.

Lemma add_user_checks_inv email age mobile gender blood_group b :
  (validate_email email ;; validate_age age ;; validate_mobile mobile ;;
   validate_gender gender ;; validate_blood_group blood_group) = Ok b ->
  accepts validate_email email /\ accepts validate_age age /\
  accepts validate_mobile mobile /\ accepts validate_gender gender /\
  accepts validate_blood_group blood_group.
Proof.
  intros Hu. unfold accepts.
  apply bind_Ok in Hu as (? & -> & Hu). apply bind_Ok in Hu as (? & -> & Hu).
  apply bind_Ok in Hu as (? & -> & Hu). apply bind_Ok in Hu as (? & -> & ->).
  repeat split.
Qed.

(** What a permitted, valid update does. *)
Lemma update_user_ok records username user_info updates current_user is_admin :
  records !! username = Some user_info -> user_info <> ∅ ->
  current_user = username \/ is_admin = true ->
  valid_record updates ->
  update_user records username updates current_user is_admin =
  (Ok (dict_update user_info updates),
   <[ username := dict_update user_info updates ]> records).
Proof.
  intros Hr Hd Hauth Hu. unfold update_user.
  rewrite Hr, (truthy_nonempty _ Hd), (validate_updates_ok _ Hu). simpl.
  destruct Hauth as [-> | ->].
  - rewrite String.eqb_refl. reflexivity.
  - rewrite andb_false_r. reflexivity.
Qed.

(** C1: [update_user] on a username that the directory does not hold fails
    with [ValueError("User not found")] and leaves the directory as it was,
    whoever asks: the existence check comes before the authorization check,
    so this holds for an unauthorized requester too. *)
Theorem update_user_missing records username updates current_user is_admin :
  records !! username = None ->
  update_user records username updates current_user is_admin =
  (Raise NotFound, records).
Proof. intros Hr. unfold update_user. rewrite Hr. reflexivity. Qed.

(** With every value accepted, an admin's [add_user] for a username that
    the directory holds stops at the membership test. *)
Lemma add_user_present records username
    email age mobile gender blood_group role current_user :
  is_Some (records !! username) ->
  accepts validate_email email -> accepts validate_age age ->
  accepts validate_mobile mobile -> accepts validate_gender gender ->
  accepts validate_blood_group blood_group ->
  add_user records username email age mobile gender blood_group role
    current_user true = (Raise AlreadyExists, records).
Proof.
  intros Hr He Ha Hm Hg Hb. unfold add_user.
  destruct (add_user_checks_ok _ _ _ _ _ He Ha Hm Hg Hb) as [b ->].
  rewrite bool_decide_eq_true_2 by assumption. reflexivity.
Qed.

(** A successful [add_user] leaves the username in the directory. *)
Lemma add_user_stores records username
    email age mobile gender blood_group role current_user is_admin
    listed records' :
  add_user records username email age mobile gender blood_group role
    current_user is_admin = (Ok listed, records') ->
  listed = records' /\
  records' = <[ username := new_record email age mobile gender blood_group role ]>
               records.
Proof.
  unfold add_user. intros Hadd.
  destruct is_admin; [|discriminate].
  destruct (_ ;; _) as [b|e]; [|discriminate].
  destruct (bool_decide _); [discriminate|].
  injection Hadd as <- <-. done.
Qed.

(** Adding the same username twice: the second call fails and changes
    nothing. *)
Lemma add_user_twice records username
    email age mobile gender blood_group role current_user is_admin
    listed records'
    email2 age2 mobile2 gender2 blood_group2 role2 current_user2 :
  add_user records username email age mobile gender blood_group role
    current_user is_admin = (Ok listed, records') ->
  accepts validate_email email2 -> accepts validate_age age2 ->
  accepts validate_mobile mobile2 -> accepts validate_gender gender2 ->
  accepts validate_blood_group blood_group2 ->
  add_user records' username email2 age2 mobile2 gender2 blood_group2 role2
    current_user2 true = (Raise AlreadyExists, records').
Proof.
  intros Hadd. apply add_user_stores in Hadd as [_ ->].
  apply add_user_present. rewrite lookup_insert_eq. eauto.
Qed.

(** C3: when an admin calls [add_user] with a username that the directory
    already holds and with field values that every validator accepts, the
    call fails with [ValueError("User already exists")] and the directory
    is unchanged. *)
Theorem add_user_duplicate records username
    email age mobile gender blood_group role current_user :
  is_Some (records !! username) ->
  accepts validate_email email -> accepts validate_age age ->
  accepts validate_mobile mobile -> accepts validate_gender gender ->
  accepts validate_blood_group blood_group ->
  add_user records username email age mobile gender blood_group role
    current_user true = (Raise AlreadyExists, records).
Proof. apply add_user_present. Qed.

(** C5: for a username whose stored record is a user record (a non-empty
    dict), [get_user_info] returns that record when the requester is the
    user or an admin and fails with [PermissionError] when the requester is
    someone else and not an admin; for a username that the directory does
    not hold it fails with [ValueError("User not found")]. *)
Theorem get_user_info_cases records username current_user is_admin :
  (forall user_info,
     records !! username = Some user_info -> user_info <> ∅ ->
     (current_user = username \/ is_admin = true ->
      get_user_info records username current_user is_admin = Ok user_info) /\
     (current_user <> username /\ is_admin = false ->
      get_user_info records username current_user is_admin =
      Raise Unauthorized)) /\
  (records !! username = None ->
   get_user_info records username current_user is_admin = Raise NotFound).
Proof.
  unfold get_user_info. split.
  - intros user_info -> Hd. rewrite (truthy_nonempty _ Hd). split.
    + intros [-> | ->]; [rewrite String.eqb_refl | rewrite orb_true_r];
        reflexivity.
    + intros [Hne ->].
      destruct (String.eqb_spec username current_user) as [->|]; [done|].
      reflexivity.
  - intros ->. reflexivity.
Qed.

(** C6: after a successful [add_user], [get_user_info] for the new username,
    asked by that user or by an admin, returns the record that holds each
    field value supplied at creation: email, age, mobile, gender,
    blood_group and role. *)
Theorem add_user_get_user_info records username
    email age mobile gender blood_group role current_user is_admin
    listed records' requester requester_is_admin :
  add_user records username email age mobile gender blood_group role
    current_user is_admin = (Ok listed, records') ->
  requester = username \/ requester_is_admin = true ->
  exists user_info,
    get_user_info records' username requester requester_is_admin =
      Ok user_info /\
    user_info !! "email" = Some email /\ user_info !! "age" = Some age /\
    user_info !! "mobile" = Some mobile /\
    user_info !! "gender" = Some gender /\
    user_info !! "blood_group" = Some blood_group /\
    user_info !! "role" = Some role /\
    dom user_info =
      ({[ "email"; "age"; "mobile"; "gender"; "blood_group"; "role" ]}
         : gset string).
Proof.
  intros Hadd Hauth. apply add_user_stores in Hadd as [_ ->].
  exists (new_record email age mobile gender blood_group role).
  split.
  - unfold get_user_info. rewrite lookup_insert_eq.
    rewrite (truthy_nonempty _ (new_record_nonempty _ _ _ _ _ _)).
    destruct Hauth as [-> | ->];
      [rewrite String.eqb_refl | rewrite orb_true_r]; reflexivity.
  - unfold new_record. split_and!; [by simplify_map_eq .. |].
    rewrite !dom_insert_L, dom_singleton_L. set_solver.
Qed.

(** C7: for a user whose stored record is a user record (a non-empty dict),
    a requester who is that user or an admin, and updates whose validated
    fields are all accepted, [update_user] returns the stored record with
    every entry of [updates] set and every other field as it was, stores
    that record under the username and leaves the other users alone. *)
Theorem update_user_merges records username user_info updates
    current_user is_admin :
  records !! username = Some user_info -> user_info <> ∅ ->
  current_user = username \/ is_admin = true ->
  valid_record updates ->
  exists updated,
    update_user records username updates current_user is_admin =
      (Ok updated, <[ username := updated ]> records) /\
    (forall k v, updates !! k = Some v -> updated !! k = Some v) /\
    (forall k, updates !! k = None -> updated !! k = user_info !! k) /\
    (forall other, other <> username ->
       <[ username := updated ]> records !! other = records !! other).
Proof.
  intros Hr Hd Hauth Hu. exists (dict_update user_info updates).
  split; [apply update_user_ok; assumption|].
  split; [intros k v; apply dict_update_set|].
  split; [intros k; apply dict_update_keep|].
  intros other Hne. apply lookup_insert_ne. congruence.
Qed.

(** C9: [list_all_users] fails with [PermissionError] for every requester
    who is not an admin, whatever the directory holds, and returns the whole
    directory to an admin. *)
Theorem list_all_users_admin_only (records : directory) current_user :
  list_all_users records current_user false = Raise Unauthorized /\
  list_all_users records current_user true = Ok records.
Proof. split; reflexivity. Qed.

(** C10: a key outside the five validated fields takes no part in the
    validation of [updates], whatever its value; for a user whose stored
    record is a user record and a requester who is that user or an admin,
    [update_user] merges that key with its value into the stored record,
    next to every other entry of [updates]: the record it returns and
    stores holds the key with its value, every other entry of [updates],
    and each remaining field as the stored record had it. *)
Theorem update_user_extra_key records username user_info updates
    current_user is_admin key v :
  ~ In key validated_fields ->
  records !! username = Some user_info -> user_info <> ∅ ->
  current_user = username \/ is_admin = true ->
  valid_record updates ->
  validate_updates (<[ key := v ]> updates) = validate_updates updates /\
  exists updated,
    update_user records username (<[ key := v ]> updates)
      current_user is_admin =
      (Ok updated, <[ username := updated ]> records) /\
    updated !! key = Some v /\
    (forall k w, updates !! k = Some w -> k <> key -> updated !! k = Some w) /\
    (forall k, k <> key -> updates !! k = None ->
       updated !! k = user_info !! k).
Proof.
  intros Hk Hr Hd Hauth Hu.
  split; [apply validate_updates_insert, Hk|].
  exists (dict_update user_info (<[ key := v ]> updates)).
  split; [apply update_user_ok; auto using valid_record_insert|].
  split; [apply dict_update_set, lookup_insert_eq|].
  split.
  - intros k w Hkw Hne. apply dict_update_set.
    rewrite lookup_insert_ne by congruence. exact Hkw.
  - intros k Hne Hnone. apply dict_update_keep.
    rewrite lookup_insert_ne by congruence. exact Hnone.
Qed.

(** *** Invariants of the directory *)

(** What [add_user] leaves: the directory as it was, or the directory with
    the new record under a username that was absent. *)
Lemma add_user_directory records username
    email age mobile gender blood_group role current_user is_admin :
  let after :=
    snd (add_user records username email age mobile gender blood_group role
           current_user is_admin) in
  after = records \/
  (records !! username = None /\
   valid_record (new_record email age mobile gender blood_group role) /\
   after = <[ username := new_record email age mobile gender blood_group role ]>
             records).
Proof.
  unfold add_user. destruct is_admin; [|by left].
  destruct (_ ;; _) as [b|e] eqn:Hchecks; [|by left].
  destruct (bool_decide _) eqn:Hin; [by left|]. right.
  apply bool_decide_eq_false in Hin. rewrite <- eq_None_not_Some in Hin.
  apply add_user_checks_inv in Hchecks as (He & Ha & Hm & Hg & Hb).
  split_and!; [assumption | by apply valid_record_new | reflexivity].
Qed.

(** What [update_user] leaves: the directory as it was, or the directory
    with the merged record in the place of the stored one. *)
Lemma update_user_directory records username updates current_user is_admin :
  let after :=
    snd (update_user records username updates current_user is_admin) in
  after = records \/
  (exists user_info,
     records !! username = Some user_info /\ user_info <> ∅ /\
     valid_record updates /\
     after = <[ username := dict_update user_info updates ]> records).
Proof.
  unfold update_user. destruct (records !! username) as [user_info|]; [|by left].
  destruct (truthy user_info) eqn:Ht; [|by left]. simpl.
  destruct (negb _ && negb _); [by left|].
  destruct (validate_updates updates) as [u|e] eqn:Hu; [|by left]. right.
  exists user_info. split_and!; try done.
  - intros ->. rewrite truthy_empty in Ht. discriminate.
  - eapply validate_updates_inv, Hu.
Qed.

(** Every operation keeps every stored record non-empty. *)
Lemma populated_run c records : populated records -> populated (run c records).
Proof.
  intros Hp. destruct c as [| | username ? ? ? ? ? ? ? ? | username updates ? ?];
    simpl; try assumption.
  - destruct (add_user_directory records username email age mobile gender
                blood_group role current_user is_admin) as [-> | (_ & _ & ->)];
      [assumption|].
    intros u r. rewrite lookup_insert. case_decide; [|apply Hp].
    intros [= <-]. apply new_record_nonempty.
  - destruct (update_user_directory records username updates current_user
                is_admin) as [-> | (d & _ & Hd & _ & ->)]; [assumption|].
    intros u r. rewrite lookup_insert. case_decide; [|apply Hp].
    intros [= <-]. by apply dict_update_nonempty.
Qed.

(** Every operation keeps every stored record valid. *)
Lemma valid_directory_run c records :
  valid_directory records -> valid_directory (run c records).
Proof.
  intros Hv. destruct c as [| | username ? ? ? ? ? ? ? ? | username updates ? ?];
    simpl; try assumption.
  - destruct (add_user_directory records username email age mobile gender
                blood_group role current_user is_admin)
      as [-> | (_ & Hrec & ->)]; [assumption|].
    intros u r. rewrite lookup_insert. case_decide; [|apply Hv].
    intros [= <-]. exact Hrec.
  - destruct (update_user_directory records username updates current_user
                is_admin) as [-> | (d & Hd & _ & Hu & ->)]; [assumption|].
    intros u r. rewrite lookup_insert. case_decide; [|apply Hv].
    intros [= <-]. apply valid_record_update; [eapply Hv, Hd | exact Hu].
Qed.

(** No operation removes a record, or a field of a record. *)
Lemma records_kept_run c records username (r : record) :
  records !! username = Some r ->
  exists r', run c records !! username = Some r' /\ dom r ⊆ dom r'.
Proof.
  intros Hr.
  destruct c as [| | added ? ? ? ? ? ? ? ? | updated updates ? ?];
    simpl; try (by exists r).
  - destruct (add_user_directory records added email age mobile gender
                blood_group role current_user is_admin)
      as [-> | (Hnew & _ & ->)]; [by exists r|].
    exists r. split; [|done].
    rewrite lookup_insert_ne; [assumption | congruence].
  - destruct (update_user_directory records updated updates current_user
                is_admin) as [-> | (d & Hd & _ & _ & ->)]; [by exists r|].
    destruct (decide (updated = username)) as [->|Hne].
    + exists (dict_update d updates). rewrite lookup_insert_eq.
      split; [reflexivity|].
      assert (r = d) as -> by congruence.
      unfold dict_update. rewrite dom_union_L. apply union_subseteq_r.
    + exists r. rewrite lookup_insert_ne by assumption. done.
Qed.

(** C4: every operation preserves the directory invariant, that each
    validated field (email, age, mobile, gender, blood group) held by a
    stored record is accepted by its validator; and no operation removes a
    record: a username that the directory holds before a call is held after
    it, with a record that has at least the fields it had. *)
Theorem directory_invariant c records :
  valid_directory records ->
  valid_directory (run c records) /\
  (forall username (r : record),
     records !! username = Some r ->
     exists r', run c records !! username = Some r' /\ dom r ⊆ dom r').
Proof.
  intros Hv. split.
  - apply valid_directory_run, Hv.
  - intros username r. apply records_kept_run.
Qed.

(** Starting from a valid directory without empty records (the empty
    directory is one), every sequence of calls leaves such a directory. *)
Lemma run_all_invariant cs records :
  valid_directory records -> populated records ->
  valid_directory (run_all cs records) /\ populated (run_all cs records).
Proof.
  revert records. induction cs as [|c cs IH]; intros records Hv Hp; [done|].
  simpl. apply IH; [apply valid_directory_run | apply populated_run];
    assumption.
Qed.

Lemma empty_directory_invariant :
  valid_directory ∅ /\ populated ∅.
Proof. split; intros u r Hr; rewrite lookup_empty in Hr; discriminate. Qed.

End DirectoryFacts.

(** ** The operations on the sample data *)

(** A stored record that is an empty dict is falsy, so both lookups report
    the user as missing; no operation stores such a record. *)
Example get_user_info_empty_record :
  get_user_info {[ "alice" := ∅ ]} "alice" "alice" false = Raise NotFound.
Proof. reflexivity. Qed.

Example update_user_empty_record :
  @update_user sample_constants {[ "alice" := ∅ ]} "alice"
    {[ "age" := VInt 31 ]} "alice" false =
  (Raise NotFound, {[ "alice" := ∅ ]}).
Proof. reflexivity. Qed.

(** An excluded number is not refused by [add_user]: the result of
    [validate_mobile] is not looked at. *)
Example add_user_excluded_number :
  fst (@add_user sample_constants ∅ "eve" (VStr "eve@example.com") (VInt 41)
         (VStr "9898989898") (VStr "female") (VStr "O-") (VStr "user")
         "kiran" true) =
  Ok {[ "eve" := new_record (VStr "eve@example.com") (VInt 41)
                   (VStr "9898989898") (VStr "female") (VStr "O-")
                   (VStr "user") ]}.
Proof. reflexivity. Qed.

Lemma dummy_record_valid : @valid_record sample_constants dummy_record.
Proof. apply valid_record_new; reflexivity. Qed.

Lemma sample_records_valid : @valid_directory sample_constants sample_records.
Proof.
  intros username r Hr. unfold sample_records in Hr.
  apply lookup_singleton_Some in Hr as [_ <-].
  apply dummy_record_valid.
Qed.

Lemma update_user_missing_witness :
  sample_records !! "ghost" = None /\
  @update_user sample_constants sample_records "ghost"
    {[ "age" := VInt 31 ]} "mallory" false = (Raise NotFound, sample_records).
Proof.
  split; [reflexivity|].
  apply (@update_user_missing sample_constants). reflexivity.
Defined.

Lemma add_user_duplicate_witness :
  is_Some (sample_records !! "dummy") /\
  @add_user sample_constants sample_records "dummy"
    (VStr "other@example.org") (VInt 52) (VStr "7000000001") (VStr "Other")
    (VStr "ab-") (VStr "admin") "kiran" true =
  (Raise AlreadyExists, sample_records).
Proof.
  split; [exists dummy_record; reflexivity|].
  apply (@add_user_duplicate sample_constants);
    [exists dummy_record|..]; reflexivity.
Defined.

Lemma directory_invariant_witness :
  @valid_directory sample_constants sample_records /\
  @valid_directory sample_constants
    (@run sample_constants
       (UpdateUser "dummy" {[ "email" := VStr "new_dummy@example.com" ]}
          "kiran" true) sample_records).
Proof.
  split; [apply sample_records_valid|].
  apply (@directory_invariant sample_constants), sample_records_valid.
Defined.

Lemma get_user_info_cases_witness :
  get_user_info sample_records "dummy" "dummy" false = Ok dummy_record /\
  get_user_info sample_records "dummy" "kiran" true = Ok dummy_record /\
  get_user_info sample_records "dummy" "radha2" false = Raise Unauthorized /\
  get_user_info sample_records "ghost" "kiran" true = Raise NotFound.
Proof.
  assert (sample_records !! "dummy" = Some dummy_record) as Hr by reflexivity.
  assert (dummy_record <> ∅) as Hd by apply new_record_nonempty.
  split_and!.
  - destruct (get_user_info_cases sample_records "dummy" "dummy" false)
      as [Hpresent _].
    apply (Hpresent dummy_record Hr Hd). left; reflexivity.
  - destruct (get_user_info_cases sample_records "dummy" "kiran" true)
      as [Hpresent _].
    apply (Hpresent dummy_record Hr Hd). right; reflexivity.
  - destruct (get_user_info_cases sample_records "dummy" "radha2" false)
      as [Hpresent _].
    apply (Hpresent dummy_record Hr Hd). split; [discriminate | reflexivity].
  - destruct (get_user_info_cases sample_records "ghost" "kiran" true)
      as [_ Habsent].
    apply Habsent. reflexivity.
Defined.

Lemma add_user_get_user_info_witness :
  exists user_info,
    get_user_info sample_records "dummy" "dummy" false = Ok user_info /\
    user_info !! "email" = Some (VStr "dummy@example.com") /\
    user_info !! "age" = Some (VInt 30) /\
    user_info !! "mobile" = Some (VStr "7776543210") /\
    user_info !! "gender" = Some (VStr "male") /\
    user_info !! "blood_group" = Some (VStr "A+") /\
    user_info !! "role" = Some (VStr "user") /\
    dom user_info =
      ({[ "email"; "age"; "mobile"; "gender"; "blood_group"; "role" ]}
         : gset string).
Proof.
  apply (@add_user_get_user_info sample_constants ∅ "dummy"
           (VStr "dummy@example.com") (VInt 30) (VStr "7776543210")
           (VStr "male") (VStr "A+") (VStr "user") "kiran" true
           sample_records sample_records "dummy" false);
    [reflexivity | left; reflexivity].
Defined.

Lemma update_user_merges_witness :
  exists updated,
    @update_user sample_constants sample_records "dummy"
      {[ "email" := VStr "new_dummy@example.com" ]} "kiran" true =
      (Ok updated, <[ "dummy" := updated ]> sample_records) /\
    updated !! "email" = Some (VStr "new_dummy@example.com") /\
    updated !! "age" = Some (VInt 30).
Proof.
  destruct (@update_user_merges sample_constants sample_records "dummy"
              dummy_record {[ "email" := VStr "new_dummy@example.com" ]}
              "kiran" true)
    as (updated & Hrun & Hset & Hkeep & _).
  - reflexivity.
  - apply new_record_nonempty.
  - right; reflexivity.
  - repeat split; intros w Hw; apply lookup_singleton_Some in Hw as [Hk <-];
      first [discriminate Hk | reflexivity].
  - exists updated. split; [exact Hrun|]. split.
    + apply Hset. reflexivity.
    + rewrite Hkeep; reflexivity.
Defined.

Lemma update_user_extra_key_witness :
  ~ In "role" validated_fields /\
  exists updated,
    @update_user sample_constants sample_records "dummy"
      (<[ "role" := VStr "admin" ]> ∅) "dummy" false =
      (Ok updated, <[ "dummy" := updated ]> sample_records) /\
    updated !! "role" = Some (VStr "admin") /\
    updated !! "email" = Some (VStr "dummy@example.com") /\
    updated !! "age" = Some (VInt 30).
Proof.
  assert (~ In "role" validated_fields) as Hk
    by (intros [?|[?|[?|[?|[?|[]]]]]]; discriminate).
  split; [exact Hk|].
  destruct (@update_user_extra_key sample_constants sample_records "dummy"
              dummy_record ∅ "dummy" false "role" (VStr "admin") Hk)
    as (_ & updated & Hrun & Hset & _ & Hkeep).
  - reflexivity.
  - apply new_record_nonempty.
  - left; reflexivity.
  - repeat split; intros w Hw; rewrite lookup_empty in Hw; discriminate.
  - exists updated. split; [exact Hrun|]. split; [exact Hset|].
    split; (rewrite Hkeep; [reflexivity | discriminate | reflexivity]).
Defined.

(** * Further properties *)

(** ** The matcher and the words of a regular expression *)

Lemma str_app_cons c s t :
  String.append (String c s) t = String c (String.append s t).
Proof. reflexivity. Qed.

Lemma str_app_nil_l t : String.append EmptyString t = t.
Proof. reflexivity. Qed.

Lemma str_app_nil_r s : String.append s EmptyString = s.
Proof.
  induction s as [|c s IH]; [reflexivity|]. by rewrite str_app_cons, IH.
Qed.

Lemma str_app_assoc s t u :
  String.append (String.append s t) u = String.append s (String.append t u).
Proof.
  induction s as [|c s IH]; [reflexivity|]. by rewrite !str_app_cons, IH.
Qed.

Lemma str_app_eq_nil s t :
  String.append s t = EmptyString -> s = EmptyString /\ t = EmptyString.
Proof.
  destruct s; [by rewrite str_app_nil_l | rewrite str_app_cons; discriminate].
Qed.

Lemma str_all_app p s t :
  str_all p (String.append s t) = str_all p s && str_all p t.
Proof.
  induction s as [|c s IH]; [reflexivity|].
  rewrite str_app_cons. cbn. rewrite IH. apply andb_assoc.
Qed.

Lemma matches_nil_nullable r s :
  matches r s -> s = EmptyString -> nullable r = true.
Proof.
  induction 1 as [| | a b s t _ IHa _ IHb | a b s _ IH | a b s _ IH
                 | | a s t _ _ _ _]; intros E; cbn; try done.
  - apply str_app_eq_nil in E as [-> ->]. by rewrite IHa, IHb.
  - by rewrite IH.
  - rewrite IH by done. apply orb_true_r.
Qed.

Lemma nullable_matches r : nullable r = true -> matches r EmptyString.
Proof.
  induction r as [| | p | a IHa b IHb | a IHa b IHb | a IH]; cbn; try done.
  - intros _. constructor.
  - intros [Ha Hb]%andb_true_iff.
    apply (matches_cat a b EmptyString EmptyString); auto.
  - intros [Ha | Hb]%orb_true_iff; [apply matches_alt_l | apply matches_alt_r];
      auto.
  - intros _. constructor.
Qed.

Lemma deriv_matches c r s : matches (deriv c r) s -> matches r (String c s).
Proof.
  revert s. induction r as [| | p | a IHa b IHb | a IHa b IHb | a IH];
    intros s; cbn.
  - inversion 1.
  - inversion 1.
  - destruct (p c) eqn:Hp; inversion 1; subst. by constructor.
  - assert (forall u, matches (Cat (deriv c a) b) u -> matches (Cat a b) (String c u))
      as Hcat.
    { inversion 1 as [| | ? ? s1 s2 H1 H2 | | | |]; subst.
      apply (matches_cat a b (String c s1) s2); auto. }
    destruct (nullable a) eqn:Hn; [|apply Hcat].
    inversion 1 as [| | | ? ? ? Hl | ? ? ? Hr | |]; subst; [by apply Hcat|].
    apply (matches_cat a b EmptyString (String c s));
      [by apply nullable_matches | auto].
  - inversion 1; subst; [apply matches_alt_l | apply matches_alt_r]; auto.
  - inversion 1 as [| | ? ? s1 s2 H1 H2 | | | |]; subst.
    apply (matches_star_app a (String c s1) s2); auto.
Qed.

Lemma matches_deriv r w :
  matches r w -> forall c s, w = String c s -> matches (deriv c r) s.
Proof.
  induction 1 as [| p d Hp | a b s1 t Ha IHa Hb IHb | a b s1 Ha IH
                 | a b s1 Hb IH | | a s1 t Ha IHa Hs IHs]; intros c s E; cbn.
  - discriminate.
  - injection E as -> <-. rewrite Hp. constructor.
  - destruct s1 as [|d s1];
      [rewrite str_app_nil_l in E | rewrite str_app_cons in E].
    + subst t. rewrite (matches_nil_nullable _ _ Ha eq_refl).
      apply matches_alt_r. by apply IHb.
    + injection E as -> <-.
      assert (matches (Cat (deriv c a) b) (String.append s1 t)) as Hcat
        by (constructor; auto).
      destruct (nullable a); [by apply matches_alt_l | done].
  - apply matches_alt_l. by apply IH.
  - apply matches_alt_r. by apply IH.
  - discriminate.
  - destruct s1 as [|d s1];
      [rewrite str_app_nil_l in E | rewrite str_app_cons in E].
    + subst t. by apply IHs.
    + injection E as -> <-. constructor; auto.
Qed.

(** The matcher decides membership. *)
Lemma full_match_matches r s : full_match r s = true <-> matches r s.
Proof.
  revert r. induction s as [|c s IH]; intros r; cbn.
  - split; [apply nullable_matches | intros Hm; by eapply matches_nil_nullable].
  - rewrite IH. split; [apply deriv_matches | intros Hm; by eapply matches_deriv].
Qed.

Lemma matches_cat_iff a b s :
  matches (Cat a b) s <->
  exists s1 s2, s = String.append s1 s2 /\ matches a s1 /\ matches b s2.
Proof.
  split.
  - inversion 1; subst; eauto.
  - intros (s1 & s2 & -> & Ha & Hb). by constructor.
Qed.

Lemma matches_cls_iff p s :
  matches (Cls p) s <-> exists c, s = String c EmptyString /\ p c = true.
Proof.
  split.
  - inversion 1; subst; eauto.
  - intros (c & -> & Hp). by constructor.
Qed.

Lemma matches_star_cls p s : matches (Star (Cls p)) s <-> str_all p s = true.
Proof.
  split.
  - intros Hm. remember (Star (Cls p)) as r eqn:Er.
    induction Hm as [| | | | | | a s t Ha _ Hs IH]; try discriminate; [done|].
    injection Er as ->. rewrite str_all_app, IH by done.
    apply matches_cls_iff in Ha as (c & -> & Hc). cbn. by rewrite Hc.
  - induction s as [|c s IH]; cbn; [constructor|].
    intros [Hc Hs]%andb_true_iff.
    apply (matches_star_app (Cls p) (String c EmptyString) s);
      [by constructor | auto].
Qed.

Lemma matches_plus_cls p s : matches (Plus (Cls p)) s <-> word_of p s.
Proof.
  unfold Plus, word_of. rewrite matches_cat_iff. split.
  - intros (s1 & s2 & -> & (c & -> & Hc)%matches_cls_iff & Hs%matches_star_cls).
    rewrite str_app_cons, str_app_nil_l. cbn. rewrite Hc, Hs.
    split; [discriminate | reflexivity].
  - intros [Hne Hs]. destruct s as [|c s]; [done|]. cbn in Hs.
    apply andb_true_iff in Hs as [Hc Hs].
    exists (String c EmptyString), s.
    split_and!; [done | by constructor | by apply matches_star_cls].
Qed.

Lemma is_char_eq d c : is_char d c = true <-> c = d.
Proof. unfold is_char. rewrite Ascii.eqb_eq. split; congruence. Qed.

(** The words of the e-mail pattern. *)
Lemma matches_email s : matches email_regex s <-> email_shape s.
Proof.
  unfold email_regex, email_shape. rewrite matches_cat_iff. split.
  - intros (l & r1 & -> & Hl%matches_plus_cls & H1).
    apply matches_cat_iff in H1
      as (a & r2 & -> & (c & -> & ->%is_char_eq)%matches_cls_iff & H2).
    apply matches_cat_iff in H2 as (h & r3 & -> & Hh%matches_plus_cls & H3).
    apply matches_cat_iff in H3
      as (d & t & -> & (c & -> & ->%is_char_eq)%matches_cls_iff
          & Ht%matches_plus_cls).
    exists l, h, t. done.
  - intros (l & h & t & -> & Hl & Hh & Ht).
    exists l, (String "@" (String.append h (String "." t))).
    split_and!; [done | by apply matches_plus_cls |].
    apply (matches_cat _ _ (String "@" EmptyString)); [by constructor|].
    constructor; [by apply matches_plus_cls|].
    apply (matches_cat _ _ (String "." EmptyString));
      [by constructor | by apply matches_plus_cls].
Qed.

Lemma re_match_email s :
  re_match email_regex s = true <->
  email_shape s \/
  exists t, s = String.append t (String newline EmptyString) /\ email_shape t.
Proof.
  unfold re_match. rewrite orb_true_iff, full_match_matches, matches_email.
  split; (intros [Hs | Ht]; [by left | right]).
  - destruct (chomp s) as [t|] eqn:Hc; [|discriminate].
    exists t. split; [by apply chomp_Some|].
    by apply matches_email, full_match_matches.
  - destruct Ht as (t & -> & Ht). rewrite chomp_append.
    by apply full_match_matches, matches_email.
Qed.

(** ** Validators, further *)

(** X1. [validate_email] returns [True] for a string exactly when it has
    the shape local@host.suffix, or is such a string followed by one line
    feed; for every other string it raises
    [ValueError("Invalid email format")]. *)
Theorem validate_email_shape s :
  (validate_email (VStr s) = Ok true <->
   email_shape s \/
   exists t, s = String.append t (String newline EmptyString) /\ email_shape t) /\
  (validate_email (VStr s) = Ok true \/
   validate_email (VStr s) = Raise (ValueError "Invalid email format")).
Proof.
  rewrite <- re_match_email. unfold validate_email.
  destruct (re_match email_regex s); cbn; split; try tauto.
  split; [discriminate | discriminate].
Qed.

Lemma lower_upper_char c : lower_char (upper_char c) = lower_char c.
Proof. destruct c as [[] [] [] [] [] [] [] []]; reflexivity. Qed.

Lemma upper_lower_char c : upper_char (lower_char c) = upper_char c.
Proof. destruct c as [[] [] [] [] [] [] [] []]; reflexivity. Qed.

Lemma lower_lower_char c : lower_char (lower_char c) = lower_char c.
Proof. destruct c as [[] [] [] [] [] [] [] []]; reflexivity. Qed.

Lemma upper_upper_char c : upper_char (upper_char c) = upper_char c.
Proof. destruct c as [[] [] [] [] [] [] [] []]; reflexivity. Qed.

Lemma str_map_map f g h s :
  (forall c, f (g c) = h c) -> str_map f (str_map g s) = str_map h s.
Proof. intros E. induction s as [|c s IH]; cbn; [done | by rewrite E, IH]. Qed.

Section CaseFacts.
Context `{Constants}.

(** X2. [validate_gender] does not look at the case of ASCII text: the
    upper-case and the lower-case form of a string get the result of the
    string itself. *)
Theorem validate_gender_any_case s :
  str_all is_ascii s = true ->
  validate_gender (VStr (upper s)) = validate_gender (VStr s) /\
  validate_gender (VStr (lower s)) = validate_gender (VStr s).
Proof.
  intros _. unfold validate_gender, lower, upper.
  rewrite (str_map_map _ _ lower_char s lower_upper_char).
  rewrite (str_map_map _ _ lower_char s lower_lower_char). done.
Qed.

(** X3. [validate_blood_group] does not look at the case of ASCII text. *)
Theorem validate_blood_group_any_case s :
  str_all is_ascii s = true ->
  validate_blood_group (VStr (lower s)) = validate_blood_group (VStr s) /\
  validate_blood_group (VStr (upper s)) = validate_blood_group (VStr s).
Proof.
  intros _. unfold validate_blood_group, lower, upper.
  rewrite (str_map_map _ _ upper_char s upper_lower_char).
  rewrite (str_map_map _ _ upper_char s upper_upper_char). done.
Qed.

End CaseFacts.

(** ** [add_user], further *)

Section AddUserFacts.
Context `{Constants}.

(** X4. [add_user] succeeds exactly when the requester is an admin, each of
    the five values is accepted by its validator and the username is not in
    the directory; it then stores the new record under the username and
    returns the directory it leaves. *)
Theorem add_user_succeeds_iff records username
    email age mobile gender blood_group role current_user is_admin :
  let outcome :=
    add_user records username email age mobile gender blood_group role
      current_user is_admin in
  let records' :=
    <[ username := new_record email age mobile gender blood_group role ]>
      records in
  ((exists listed, fst outcome = Ok listed) <->
   is_admin = true /\ accepts validate_email email /\
   accepts validate_age age /\ accepts validate_mobile mobile /\
   accepts validate_gender gender /\
   accepts validate_blood_group blood_group /\
   records !! username = None) /\
  (forall listed, fst outcome = Ok listed -> outcome = (Ok records', records')).
Proof.
  cbn zeta. unfold add_user. destruct is_admin.
  - destruct (_ ;; _) as [b|e] eqn:Hc.
    + apply add_user_checks_inv in Hc as (He & Ha & Hm & Hg & Hb).
      destruct (bool_decide _) eqn:Hin; cbn.
      * apply bool_decide_eq_true in Hin as [r Hr]. split.
        -- split; [intros [? [=]] | intros (_ & _ & _ & _ & _ & _ & Hn)].
           congruence.
        -- intros ? [=].
      * apply bool_decide_eq_false in Hin. rewrite <- eq_None_not_Some in Hin.
        split; [|done]. split; [done | eauto].
    + cbn. split; [|intros ? [=]].
      split; [intros [? [=]] | intros (_ & He & Ha & Hm & Hg & Hb & _)].
      destruct (add_user_checks_ok _ _ _ _ _ He Ha Hm Hg Hb) as [b Hb'].
      congruence.
  - cbn. split; [|intros ? [=]].
    split; [intros [? [=]] | intros ([=] & _)].
Qed.

(** X5. A failed [add_user] writes nothing: whenever the call raises, for
    whatever reason, the directory is as it was. *)
Theorem add_user_failure_atomic records username
    email age mobile gender blood_group role current_user is_admin e :
  fst (add_user records username email age mobile gender blood_group role
         current_user is_admin) = Raise e ->
  snd (add_user records username email age mobile gender blood_group role
         current_user is_admin) = records.
Proof.
  unfold add_user. destruct is_admin; [|done].
  destruct (_ ;; _); [|done]. destruct (bool_decide _); [done | discriminate].
Qed.

(** X6. The checks of [add_user] come in a fixed order and the first one
    that fails decides the error: authorization, then email, age, mobile,
    gender, blood group, and the membership test last.  A non-admin is
    refused whatever the values; an invalid value is reported even when the
    username is already taken. *)
Theorem add_user_first_failure records username
    email age mobile gender blood_group role current_user e :
  add_user records username email age mobile gender blood_group role
    current_user false = (Raise Unauthorized, records) /\
  let admin_call :=
    add_user records username email age mobile gender blood_group role
      current_user true in
  (validate_email email = Raise e -> admin_call = (Raise e, records)) /\
  (accepts validate_email email -> validate_age age = Raise e ->
   admin_call = (Raise e, records)) /\
  (accepts validate_email email -> accepts validate_age age ->
   validate_mobile mobile = Raise e -> admin_call = (Raise e, records)) /\
  (accepts validate_email email -> accepts validate_age age ->
   accepts validate_mobile mobile -> validate_gender gender = Raise e ->
   admin_call = (Raise e, records)) /\
  (accepts validate_email email -> accepts validate_age age ->
   accepts validate_mobile mobile -> accepts validate_gender gender ->
   validate_blood_group blood_group = Raise e ->
   admin_call = (Raise e, records)).
Proof.
  split; [reflexivity|]. cbn zeta. unfold add_user, accepts.
  split_and!; intros;
    repeat match goal with
           | Hr : raises ?m = false |- _ =>
               destruct (raises_false _ Hr) as [? ->]; clear Hr
           | Hr : _ = Raise _ |- _ => rewrite Hr; clear Hr
           end; reflexivity.
Qed.

(** X7. [add_user] never changes a record that is already stored, whatever
    its arguments, and on success the usernames of the directory are the
    old ones and the new one. *)
Theorem add_user_keeps_records records username
    email age mobile gender blood_group role current_user is_admin :
  let outcome :=
    add_user records username email age mobile gender blood_group role
      current_user is_admin in
  (forall other (r : record),
     records !! other = Some r -> snd outcome !! other = Some r) /\
  (forall listed, fst outcome = Ok listed ->
     dom (snd outcome) = {[ username ]} ∪ dom records /\
     size (snd outcome) = S (size records)).
Proof.
  cbn zeta. unfold add_user. destruct is_admin; [|by split].
  destruct (_ ;; _); [|by split].
  destruct (bool_decide _) eqn:Hin; [by split|]. cbn.
  apply bool_decide_eq_false in Hin. rewrite <- eq_None_not_Some in Hin.
  split.
  - intros other r Hr. rewrite lookup_insert_ne; [done | congruence].
  - intros _ _. split; [apply dom_insert_L | by apply map_size_insert_None].
Qed.

End AddUserFacts.

(** ** The exclusion list *)

Lemma validate_mobile_then (C1 C2 : Constants) mobile {B : Type} (k : result B) :
  (@validate_mobile C1 mobile ;; k) = (@validate_mobile C2 mobile ;; k).
Proof.
  destruct mobile as [s| | |]; try reflexivity. unfold validate_mobile.
  destruct (re_match mobile_regex s); [|reflexivity].
  destruct (str_in s (@EXCLUDED_NUMBERS C1)), (str_in s (@EXCLUDED_NUMBERS C2));
    reflexivity.
Qed.

Lemma check_mobile_then (C1 C2 : Constants) (updates : record)
    {B : Type} (k : result B) :
  (check_field updates "mobile" (@validate_mobile C1) ;; k) =
  (check_field updates "mobile" (@validate_mobile C2) ;; k).
Proof.
  unfold check_field. destruct (updates !! "mobile") as [v|]; [|reflexivity].
  pose proof (validate_mobile_then C1 C2 v (Ok tt)) as Hv.
  destruct (@validate_mobile C1 v), (@validate_mobile C2 v);
    cbn in *; congruence.
Qed.

(** X8. The exclusion list has no effect on the directory operations: with
    the same gender and blood-group tables, [add_user] and [update_user]
    give the same result and leave the same directory whatever
    [EXCLUDED_NUMBERS] holds. *)
Theorem exclusion_list_unused (C1 C2 : Constants) records username
    email age mobile gender blood_group role (updates : record)
    current_user is_admin :
  @VALID_GENDERS C1 = @VALID_GENDERS C2 ->
  @VALID_BLOOD_GROUPS C1 = @VALID_BLOOD_GROUPS C2 ->
  @add_user C1 records username email age mobile gender blood_group role
    current_user is_admin =
  @add_user C2 records username email age mobile gender blood_group role
    current_user is_admin /\
  @update_user C1 records username updates current_user is_admin =
  @update_user C2 records username updates current_user is_admin.
Proof.
  intros Hg Hb.
  assert (@validate_gender C1 = @validate_gender C2) as Eg
    by (unfold validate_gender; by rewrite Hg).
  assert (@validate_blood_group C1 = @validate_blood_group C2) as Eb
    by (unfold validate_blood_group; by rewrite Hb).
  split.
  - unfold add_user. by rewrite (validate_mobile_then C1 C2), Eg, Eb.
  - unfold update_user, validate_updates.
    by rewrite (check_mobile_then C1 C2), Eg, Eb.
Qed.

(** ** [update_user], further *)

Section UpdateUserFacts.
Context `{Constants}.

(** X9. For a stored, non-empty record, a requester who is neither the
    user nor an admin is refused with [PermissionError] and nothing is
    written, whatever the updates hold: authorization comes before
    validation. *)
Theorem update_user_unauthorized records username user_info updates
    current_user :
  records !! username = Some user_info -> user_info <> ∅ ->
  current_user <> username ->
  update_user records username updates current_user false =
  (Raise Unauthorized, records).
Proof.
  intros Hr Hd Hne. unfold update_user. rewrite Hr, (truthy_nonempty _ Hd).
  destruct (String.eqb_spec current_user username); [done | reflexivity].
Qed.

(** X10. A failed [update_user] writes nothing: when one field of the
    updates is refused, no field is merged. *)
Theorem update_user_failure_atomic records username updates
    current_user is_admin e :
  fst (update_user records username updates current_user is_admin) = Raise e ->
  snd (update_user records username updates current_user is_admin) = records.
Proof.
  unfold update_user. destruct (records !! username); [|done].
  destruct (negb (truthy _)); [done|]. destruct (negb _ && negb _); [done|].
  destruct (validate_updates updates); [discriminate | done].
Qed.

Lemma update_user_dom records username updates current_user is_admin :
  dom (snd (update_user records username updates current_user is_admin)) =
  dom records.
Proof.
  destruct (update_user_directory records username updates current_user
              is_admin) as [-> | (d & Hd & _ & _ & ->)]; [done|].
  rewrite dom_insert_L. apply elem_of_dom_2 in Hd.
  apply subseteq_union_1_L. by apply singleton_subseteq_l.
Qed.

(** X11. [update_user] never adds or removes a user: the usernames of the
    directory are the same after every call, and the records of the other
    users are untouched. *)
Theorem update_user_same_users records username updates current_user is_admin :
  dom (snd (update_user records username updates current_user is_admin)) =
    dom records /\
  (forall other, other <> username ->
     snd (update_user records username updates current_user is_admin) !! other
     = records !! other).
Proof.
  split; [apply update_user_dom|]. intros other Hne.
  destruct (update_user_directory records username updates current_user
              is_admin) as [-> | (d & _ & _ & _ & ->)]; [done|].
  by rewrite lookup_insert_ne.
Qed.

Lemma update_user_Ok records username updates current_user is_admin
    updated records' :
  update_user records username updates current_user is_admin =
    (Ok updated, records') ->
  exists user_info,
    records !! username = Some user_info /\ user_info <> ∅ /\
    (current_user = username \/ is_admin = true) /\
    valid_record updates /\
    updated = dict_update user_info updates /\
    records' = <[ username := updated ]> records.
Proof.
  unfold update_user. destruct (records !! username) as [d|]; [|discriminate].
  destruct (truthy d) eqn:Ht; [|discriminate]. cbn.
  destruct (String.eqb_spec current_user username) as [->|Hne]; cbn.
  - destruct (validate_updates updates) as [u|] eqn:Hu; [|discriminate].
    intros [= <- <-]. exists d. split_and!; eauto using validate_updates_inv.
    intros ->. by rewrite truthy_empty in Ht.
  - destruct is_admin; cbn; [|discriminate].
    destruct (validate_updates updates) as [u|] eqn:Hu; [|discriminate].
    intros [= <- <-]. exists d. split_and!; eauto using validate_updates_inv.
    intros ->. by rewrite truthy_empty in Ht.
Qed.

Lemma dict_update_twice (d updates : record) :
  dict_update (dict_update d updates) updates = dict_update d updates.
Proof.
  unfold dict_update. by rewrite (assoc_L (∪)), (idemp_L (∪)).
Qed.

Lemma dict_update_compose (d first second : record) :
  dict_update (dict_update d first) second =
  dict_update d (dict_update first second).
Proof. unfold dict_update. by rewrite (assoc_L (∪)). Qed.

(** X12. [update_user] is idempotent: repeating a successful update with
    the same arguments succeeds again, returns the same record and leaves
    the directory as the first call left it. *)
Theorem update_user_idempotent records username updates current_user is_admin
    updated records' :
  update_user records username updates current_user is_admin =
    (Ok updated, records') ->
  update_user records' username updates current_user is_admin =
    (Ok updated, records').
Proof.
  intros (d & Hr & Hd & Hauth & Hu & -> & ->)%update_user_Ok.
  rewrite (update_user_ok _ username (dict_update d updates) updates);
    [| apply lookup_insert_eq | by apply dict_update_nonempty | done | done].
  by rewrite dict_update_twice, insert_insert_eq.
Qed.

(** X13. Two successful updates of a user in a row amount to one update
    with the second mapping laid over the first. *)
Theorem update_user_compose records username first second
    current_user is_admin current_user' is_admin' mid records1 final records2 :
  update_user records username first current_user is_admin =
    (Ok mid, records1) ->
  update_user records1 username second current_user' is_admin' =
    (Ok final, records2) ->
  update_user records username (dict_update first second)
    current_user' is_admin' = (Ok final, records2).
Proof.
  intros (d & Hr & Hd & _ & Hu1 & -> & ->)%update_user_Ok.
  intros (d' & Hr' & _ & Hauth & Hu2 & -> & ->)%update_user_Ok.
  rewrite lookup_insert_eq in Hr'. injection Hr' as <-.
  rewrite (update_user_ok _ username d);
    [| done | done | done | by apply valid_record_update].
  by rewrite dict_update_compose, insert_insert_eq.
Qed.

(** X14. An update with an empty mapping is permitted to the user and to
    an admin, returns the stored record and changes nothing. *)
Theorem update_user_empty_updates records username user_info
    current_user is_admin :
  records !! username = Some user_info -> user_info <> ∅ ->
  current_user = username \/ is_admin = true ->
  update_user records username ∅ current_user is_admin =
  (Ok user_info, records).
Proof.
  intros Hr Hd Hauth.
  rewrite (update_user_ok _ username user_info); [| done | done | done |].
  - unfold dict_update. rewrite (left_id_L ∅ (∪)). by rewrite insert_id.
  - repeat split; intros v Hv; by rewrite lookup_empty in Hv.
Qed.

(** X15. After a successful [update_user], [get_user_info] with the same
    requester returns the record that the update returned. *)
Theorem update_user_then_get records username updates current_user is_admin
    updated records' :
  update_user records username updates current_user is_admin =
    (Ok updated, records') ->
  get_user_info records' username current_user is_admin = Ok updated.
Proof.
  intros (d & Hr & Hd & Hauth & Hu & -> & ->)%update_user_Ok.
  unfold get_user_info. rewrite lookup_insert_eq.
  rewrite (truthy_nonempty _ (dict_update_nonempty _ _ Hd)).
  destruct Hauth as [-> | ->];
    [rewrite String.eqb_refl | rewrite orb_true_r]; reflexivity.
Qed.

End UpdateUserFacts.

(** ** Directories built by the operations *)

Section ReachableFacts.
Context `{Constants}.

Lemma new_record_fields email age mobile gender blood_group role :
  dom (new_record email age mobile gender blood_group role) = record_fields.
Proof.
  unfold new_record, record_fields.
  rewrite !dom_insert_L, dom_singleton_L. set_solver.
Qed.

Lemma record_fields_run c records :
  (forall u (r : record), records !! u = Some r -> record_fields ⊆ dom r) ->
  forall u (r : record), run c records !! u = Some r -> record_fields ⊆ dom r.
Proof.
  intros Hf. destruct c as [| | username ? ? ? ? ? ? ? ? | username updates ? ?];
    cbn; try assumption.
  - destruct (add_user_directory records username email age mobile gender
                blood_group role current_user is_admin) as [-> | (_ & _ & ->)];
      [assumption|].
    intros u r. rewrite lookup_insert. case_decide; [|apply Hf].
    intros [= <-]. by rewrite new_record_fields.
  - destruct (update_user_directory records username updates current_user
                is_admin) as [-> | (d & Hd & _ & _ & ->)]; [assumption|].
    intros u r. rewrite lookup_insert. case_decide; [|apply Hf].
    intros [= <-]. unfold dict_update. rewrite dom_union_L.
    etrans; [apply (Hf _ _ Hd) | apply union_subseteq_r].
Qed.

Lemma record_fields_run_all cs records :
  (forall u (r : record), records !! u = Some r -> record_fields ⊆ dom r) ->
  forall u (r : record), run_all cs records !! u = Some r -> record_fields ⊆ dom r.
Proof.
  revert records. induction cs as [|c cs IH]; intros records Hf; [done|].
  cbn. apply IH. by apply record_fields_run.
Qed.

(** X16. In a directory built from the empty one by any sequence of calls
    of the four operations, every stored record has the six fields that
    [add_user] writes, and each validated field is accepted by its
    validator. *)
Theorem built_directory_records cs username (r : record) :
  run_all cs ∅ !! username = Some r ->
  record_fields ⊆ dom r /\ valid_record r.
Proof.
  intros Hr. split.
  - eapply (record_fields_run_all cs ∅); [|exact Hr].
    intros u d Hd. by rewrite lookup_empty in Hd.
  - destruct (run_all_invariant cs ∅) as [Hv _];
      [apply empty_directory_invariant.. |].
    eapply Hv, Hr.
Qed.

(** X17. In such a directory a stored user is always found:
    [get_user_info] returns the stored record to the user and to an admin,
    and never reports a stored user as missing. *)
Theorem built_directory_found cs username (r : record) requester is_admin :
  run_all cs ∅ !! username = Some r ->
  requester = username \/ is_admin = true ->
  get_user_info (run_all cs ∅) username requester is_admin = Ok r.
Proof.
  intros Hr Hauth.
  destruct (run_all_invariant cs ∅) as [_ Hp];
    [apply empty_directory_invariant.. |].
  unfold get_user_info. rewrite Hr, (truthy_nonempty _ (Hp _ _ Hr)).
  destruct Hauth as [-> | ->];
    [rewrite String.eqb_refl | rewrite orb_true_r]; reflexivity.
Qed.

End ReachableFacts.

(** ** The kinds of exception *)

Section ExceptionFacts.
Context `{Constants}.

Lemma handled_bind {A B : Type} (m : result A) (k : A -> result B) :
  handled m -> (forall a, handled (k a)) -> handled (m ≫= k).
Proof. destruct m as [a|e]; cbn; [auto | done]. Qed.

Lemma validate_email_handled s : handled (validate_email (VStr s)).
Proof. unfold validate_email. by destruct (negb _). Qed.

Lemma validate_age_handled a : handled (validate_age (VInt a)).
Proof. unfold validate_age. by destruct (negb _). Qed.

Lemma validate_mobile_handled s : handled (validate_mobile (VStr s)).
Proof. unfold validate_mobile. destruct (negb _); [done|]. by destruct (str_in _ _). Qed.

Lemma validate_gender_handled s : handled (validate_gender (VStr s)).
Proof. unfold validate_gender. by destruct (negb _). Qed.

Lemma validate_blood_group_handled s : handled (validate_blood_group (VStr s)).
Proof. unfold validate_blood_group. by destruct (negb _). Qed.

Lemma add_user_typed records username (email mobile gender blood_group : string)
    (age : Z) role current_user is_admin :
  handled (fst (add_user records username (VStr email) (VInt age) (VStr mobile)
                  (VStr gender) (VStr blood_group) role current_user is_admin)).
Proof.
  unfold add_user. destruct is_admin; [|done].
  assert (handled (validate_email (VStr email) ;; validate_age (VInt age) ;;
                   validate_mobile (VStr mobile) ;;
                   validate_gender (VStr gender) ;;
                   validate_blood_group (VStr blood_group))) as Hc.
  { repeat (apply handled_bind; intros);
      auto using validate_email_handled, validate_age_handled,
        validate_mobile_handled, validate_gender_handled,
        validate_blood_group_handled. }
  destruct (_ ;; _) as [b|e]; [|exact Hc]. by destruct (bool_decide _).
Qed.

Lemma get_user_info_handled records username current_user is_admin :
  handled (get_user_info records username current_user is_admin).
Proof.
  unfold get_user_info. destruct (records !! username) as [d|]; [|done].
  destruct (truthy d); [|done]. by destruct (_ || _).
Qed.

Lemma update_user_valid_handled records username updates current_user is_admin :
  valid_record updates ->
  handled (fst (update_user records username updates current_user is_admin)).
Proof.
  intros Hu. unfold update_user. rewrite (validate_updates_ok _ Hu).
  destruct (records !! username) as [d|]; [|done].
  destruct (negb (truthy d)); [done|]. by destruct (negb _ && negb _).
Qed.

Lemma try_except_handled {A : Type} (body : result A) :
  handled body -> exists e, try_except body = Ok e.
Proof. destruct body as [a|[]]; cbn; eauto; done. Qed.

(** X18. Called with values of the documented types (strings, and an
    integer age), [add_user] raises nothing but [ValueError] and
    [PermissionError], the two kinds that the callers in [main] handle. *)
Theorem add_user_typed_errors records username
    (email mobile gender blood_group : string) (age : Z) role
    current_user is_admin e :
  fst (add_user records username (VStr email) (VInt age) (VStr mobile)
         (VStr gender) (VStr blood_group) role current_user is_admin)
    = Raise e ->
  caught e = true.
Proof.
  intros He.
  pose proof (add_user_typed records username email mobile gender blood_group
                age role current_user is_admin) as Hh.
  rewrite He in Hh. by destruct e.
Qed.

(** X19. An e-mail that is not a string makes an admin's [add_user] raise
    [TypeError], which is neither of the handled kinds; nothing is
    written. *)
Theorem add_user_email_type_error records username
    email age mobile gender blood_group role current_user :
  (forall s, email <> VStr s) ->
  add_user records username email age mobile gender blood_group role
    current_user true = (Raise TypeError, records) /\
  caught TypeError = false.
Proof.
  intros Hs. split; [|reflexivity]. unfold add_user.
  destruct email as [s| | |]; [by destruct (Hs s) | done..].
Qed.

(** X20. [main] never ends by an exception, whatever the configuration and
    the directory it starts from; it changes no record other than the one
    of "dummy" and removes no user. *)
Theorem main_handles_all records :
  (exists outcomes, fst (main records) = Ok outcomes) /\
  (forall u, u <> "dummy" -> snd (main records) !! u = records !! u) /\
  dom records ⊆ dom (snd (main records)).
Proof.
  unfold main.
  set (added := add_user records "dummy" _ _ _ _ _ _ _ _).
  set (updated := update_user (snd added) "dummy" _ _ _).
  assert (forall u, u <> "dummy" -> snd added !! u = records !! u) as Ha.
  { intros u Hu. destruct (add_user_directory records "dummy"
      (VStr "dummy@example.com") (VInt 30) (VStr "7776543210") (VStr "male")
      (VStr "A+") (VStr "user") "kiran" true) as [E | (_ & _ & E)];
      fold added in E; rewrite E; [done|]. by rewrite lookup_insert_ne. }
  assert (forall u, u <> "dummy" -> snd updated !! u = snd added !! u) as Hu.
  { intros u Hne. destruct (update_user_directory (snd added) "dummy"
      {[ "email" := VStr "new_dummy@example.com" ]} "kiran" true)
      as [E | (d & _ & _ & _ & E)]; fold updated in E; rewrite E; [done|].
    by rewrite lookup_insert_ne. }
  assert (dom records ⊆ dom (snd added)) as Da.
  { intros u [r Hr]%elem_of_dom.
    destruct (records_kept_run (AddUser "dummy" (VStr "dummy@example.com")
      (VInt 30) (VStr "7776543210") (VStr "male") (VStr "A+") (VStr "user")
      "kiran" true) records u r Hr) as (r' & Hr' & _).
    apply elem_of_dom. eauto. }
  assert (dom (snd updated) = dom (snd added)) as Du
    by apply update_user_dom.
  destruct (try_except_handled (fst added)) as [e1 E1];
    [apply add_user_typed|].
  destruct (try_except_handled (fst updated)) as [e2 E2].
  { apply update_user_valid_handled.
    repeat split; intros w Hw; apply lookup_singleton_Some in Hw as [Hk <-];
      first [discriminate Hk | reflexivity]. }
  destruct (try_except_handled (get_user_info (snd updated) "ndines" "kiran" true))
    as [e3 E3]; [apply get_user_info_handled|].
  destruct (try_except_handled
              (get_user_info (snd updated) "radha2" "radha2" false))
    as [e5 E5]; [apply get_user_info_handled|].
  rewrite E1, E2, E3, E5. cbn. split_and!.
  - eauto.
  - intros u Hne. by rewrite Hu, Ha.
  - by rewrite Du.
Qed.

End ExceptionFacts.

(** ** The run of [main] *)

Section MainFacts.
Context `{Constants}.

Lemma add_user_ok records username
    email age mobile gender blood_group role current_user :
  accepts validate_email email -> accepts validate_age age ->
  accepts validate_mobile mobile -> accepts validate_gender gender ->
  accepts validate_blood_group blood_group ->
  records !! username = None ->
  add_user records username email age mobile gender blood_group role
    current_user true =
  (Ok (<[ username := new_record email age mobile gender blood_group role ]>
         records),
   <[ username := new_record email age mobile gender blood_group role ]>
     records).
Proof.
  intros He Ha Hm Hg Hb Hn. unfold add_user.
  destruct (add_user_checks_ok _ _ _ _ _ He Ha Hm Hg Hb) as [b ->].
  rewrite bool_decide_eq_false_2; [reflexivity|].
  rewrite Hn. by intros [? ?].
Qed.

(** X21. When the tables hold "male" and "A+" and the directory has no
    user "dummy", [main] adds that user and then replaces the e-mail: the
    first two blocks and the listing handle nothing, and the directory it
    leaves is the old one with the record of "dummy", its e-mail being
    new_dummy@example.com. *)
Theorem main_adds_dummy records :
  str_in "male" VALID_GENDERS = true ->
  str_in "A+" VALID_BLOOD_GROUPS = true ->
  records !! "dummy" = None ->
  exists viewed own,
    main records =
    (Ok [None; None; viewed; None; own],
     <[ "dummy" := dict_update dummy_record
                     {[ "email" := VStr "new_dummy@example.com" ]} ]> records).
Proof.
  intros Hg Hb Hn. unfold main.
  rewrite (add_user_ok records "dummy"); [| | reflexivity | | | | exact Hn].
  - cbn [fst snd].
    rewrite (update_user_ok _ "dummy" dummy_record);
      [| apply lookup_insert_eq | apply new_record_nonempty
       | by right |].
    + cbn [fst snd try_except]. rewrite insert_insert_eq.
      set (records' := <[ "dummy" := _ ]> records).
      destruct (try_except_handled (get_user_info records' "ndines" "kiran" true))
        as [e3 E3]; [apply get_user_info_handled|].
      destruct (try_except_handled
                  (get_user_info records' "radha2" "radha2" false))
        as [e5 E5]; [apply get_user_info_handled|].
      exists e3, e5. cbn. rewrite E3, E5. reflexivity.
    + repeat split; intros w Hw; apply lookup_singleton_Some in Hw as [Hk <-];
        first [discriminate Hk | reflexivity].
  - reflexivity.
  - unfold accepts. by rewrite validate_mobile_ten_digits.
  - unfold accepts, validate_gender.
    change (lower "male") with "male". by rewrite Hg.
  - unfold accepts, validate_blood_group.
    change (upper "A+") with "A+". by rewrite Hb.
Qed.

End MainFacts.

(** ** The further properties on the sample data *)

Lemma validate_gender_any_case_witness :
  str_all is_ascii "Male" = true /\
  @validate_gender sample_constants (VStr (upper "Male")) =
    @validate_gender sample_constants (VStr "Male") /\
  @validate_gender sample_constants (VStr (lower "Male")) =
    @validate_gender sample_constants (VStr "Male").
Proof.
  split; [reflexivity|].
  apply (@validate_gender_any_case sample_constants). reflexivity.
Defined.

Lemma validate_blood_group_any_case_witness :
  str_all is_ascii "Ab+" = true /\
  @validate_blood_group sample_constants (VStr (lower "Ab+")) =
    @validate_blood_group sample_constants (VStr "Ab+") /\
  @validate_blood_group sample_constants (VStr (upper "Ab+")) =
    @validate_blood_group sample_constants (VStr "Ab+").
Proof.
  split; [reflexivity|].
  apply (@validate_blood_group_any_case sample_constants). reflexivity.
Defined.

Lemma add_user_failure_atomic_witness :
  fst (@add_user sample_constants sample_records "eve" (VStr "eve@example.com")
         (VInt 130) (VStr "7000000001") (VStr "female") (VStr "O-")
         (VStr "user") "kiran" true) = Raise (ValueError "Invalid age") /\
  snd (@add_user sample_constants sample_records "eve" (VStr "eve@example.com")
         (VInt 130) (VStr "7000000001") (VStr "female") (VStr "O-")
         (VStr "user") "kiran" true) = sample_records.
Proof.
  split; [reflexivity|].
  apply (@add_user_failure_atomic sample_constants _ _ _ _ _ _ _ _ _ _
           (ValueError "Invalid age")).
  reflexivity.
Defined.

Lemma exclusion_list_unused_witness :
  @add_user sample_constants ∅ "eve" (VStr "eve@example.com") (VInt 41)
    (VStr "9898989898") (VStr "female") (VStr "O-") (VStr "user") "kiran" true =
  @add_user open_constants ∅ "eve" (VStr "eve@example.com") (VInt 41)
    (VStr "9898989898") (VStr "female") (VStr "O-") (VStr "user") "kiran" true.
Proof.
  apply (exclusion_list_unused sample_constants open_constants ∅ "eve"
           (VStr "eve@example.com") (VInt 41) (VStr "9898989898")
           (VStr "female") (VStr "O-") (VStr "user") ∅ "kiran" true);
    reflexivity.
Defined.

Lemma update_user_unauthorized_witness :
  sample_records !! "dummy" = Some dummy_record /\
  @update_user sample_constants sample_records "dummy"
    {[ "age" := VInt 200 ]} "radha2" false =
  (Raise Unauthorized, sample_records).
Proof.
  split; [reflexivity|].
  apply (@update_user_unauthorized sample_constants sample_records "dummy"
           dummy_record);
    [reflexivity | apply new_record_nonempty | discriminate].
Defined.

Lemma update_user_failure_atomic_witness :
  fst (@update_user sample_constants sample_records "dummy"
         {[ "email" := VStr "new_dummy@example.com"; "age" := VInt 200 ]}
         "dummy" false) = Raise (ValueError "Invalid age") /\
  snd (@update_user sample_constants sample_records "dummy"
         {[ "email" := VStr "new_dummy@example.com"; "age" := VInt 200 ]}
         "dummy" false) = sample_records.
Proof.
  split; [reflexivity|].
  apply (@update_user_failure_atomic sample_constants _ _ _ _ _
           (ValueError "Invalid age")).
  reflexivity.
Defined.

Lemma update_user_idempotent_witness :
  exists updated records',
    @update_user sample_constants sample_records "dummy"
      {[ "email" := VStr "new_dummy@example.com" ]} "kiran" true =
      (Ok updated, records') /\
    @update_user sample_constants records' "dummy"
      {[ "email" := VStr "new_dummy@example.com" ]} "kiran" true =
      (Ok updated, records').
Proof.
  eexists _, _. split; [reflexivity|].
  apply (@update_user_idempotent sample_constants sample_records).
  reflexivity.
Defined.

Lemma update_user_compose_witness :
  exists final records2,
    @update_user sample_constants
      (snd (@update_user sample_constants sample_records "dummy"
              {[ "email" := VStr "new_dummy@example.com" ]} "kiran" true))
      "dummy" {[ "age" := VInt 31 ]} "dummy" false = (Ok final, records2) /\
    @update_user sample_constants sample_records "dummy"
      (dict_update {[ "email" := VStr "new_dummy@example.com" ]}
         {[ "age" := VInt 31 ]}) "dummy" false = (Ok final, records2).
Proof.
  eexists _, _. split; [reflexivity|].
  eapply (@update_user_compose sample_constants sample_records "dummy"
            {[ "email" := VStr "new_dummy@example.com" ]} {[ "age" := VInt 31 ]}
            "kiran" true "dummy" false);
    reflexivity.
Defined.

Lemma update_user_empty_updates_witness :
  sample_records !! "dummy" = Some dummy_record /\
  @update_user sample_constants sample_records "dummy" ∅ "dummy" false =
  (Ok dummy_record, sample_records).
Proof.
  split; [reflexivity|].
  apply (@update_user_empty_updates sample_constants);
    [reflexivity | apply new_record_nonempty | left; reflexivity].
Defined.

Lemma update_user_then_get_witness :
  exists updated records',
    @update_user sample_constants sample_records "dummy"
      {[ "age" := VInt 31 ]} "dummy" false = (Ok updated, records') /\
    get_user_info records' "dummy" "dummy" false = Ok updated.
Proof.
  eexists _, _. split; [reflexivity|].
  apply (@update_user_then_get sample_constants sample_records "dummy"
           {[ "age" := VInt 31 ]}).
  reflexivity.
Defined.

Lemma built_directory_records_witness :
  @run_all sample_constants [add_dummy] ∅ !! "dummy" = Some dummy_record /\
  record_fields ⊆ dom dummy_record /\
  @valid_record sample_constants dummy_record.
Proof.
  split; [reflexivity|].
  apply (@built_directory_records sample_constants [add_dummy] "dummy").
  reflexivity.
Defined.

Lemma built_directory_found_witness :
  @run_all sample_constants [add_dummy] ∅ !! "dummy" = Some dummy_record /\
  get_user_info (@run_all sample_constants [add_dummy] ∅) "dummy" "dummy" false
  = Ok dummy_record.
Proof.
  split; [reflexivity|].
  apply (@built_directory_found sample_constants [add_dummy] "dummy");
    [reflexivity | left; reflexivity].
Defined.

Lemma add_user_typed_errors_witness :
  fst (@add_user sample_constants sample_records "eve" (VStr "eve-at-example")
         (VInt 41) (VStr "7000000001") (VStr "female") (VStr "O-")
         (VStr "user") "kiran" true) =
    Raise (ValueError "Invalid email format") /\
  caught (ValueError "Invalid email format") = true.
Proof.
  split; [reflexivity|].
  apply (@add_user_typed_errors sample_constants sample_records "eve"
           "eve-at-example" "7000000001" "female" "O-" 41 (VStr "user")
           "kiran" true).
  reflexivity.
Defined.

Lemma add_user_email_type_error_witness :
  @add_user sample_constants sample_records "eve" VNone (VInt 41)
    (VStr "7000000001") (VStr "female") (VStr "O-") (VStr "user") "kiran" true
  = (Raise TypeError, sample_records) /\
  caught TypeError = false.
Proof.
  apply (@add_user_email_type_error sample_constants). discriminate.
Defined.

Lemma main_adds_dummy_witness :
  exists viewed own,
    @main sample_constants ∅ =
    (Ok [None; None; viewed; None; own],
     <[ "dummy" := dict_update dummy_record
                     {[ "email" := VStr "new_dummy@example.com" ]} ]> ∅).
Proof.
  apply (@main_adds_dummy sample_constants ∅); reflexivity.
Defined.

(** ** The outcomes of [validate_mobile] *)



